(** * CXG Computachess II: the I/O multiplexing of the driver

    A shallow embedding of [cpchess2_state] from
    [src/mame/cxg/computachess2.cpp]: the input-mux latch [m_inp_mux],
    the two nibble writes [mux_w<0>] and [mux_w<1>], the control write
    [control_w] and the composite read [input_r].

    C++ integers are [Z] with every conversion to a narrower unsigned
    type written out ([to_u8], [to_u16]); the integer promotions of C++
    mean that the operators themselves work on [int], which for the
    values that occur here (less than 2^13 in magnitude) is plain [Z]
    arithmetic with two's-complement bit operations. *)

From Stdlib Require Import ZArith List Bool Lia Btauto.
Import ListNotations.

Local Open Scope Z_scope.

(** ** Fixed-width integers *)

Definition is_u8 (x : Z) : Prop := 0 <= x < 2 ^ 8.
Definition is_u16 (x : Z) : Prop := 0 <= x < 2 ^ 16.

(** Conversion of an [int] to [u8] and to [u16]: reduction modulo 2^w. *)
Definition to_u8 (x : Z) : Z := x mod 2 ^ 8.
Definition to_u16 (x : Z) : Z := x mod 2 ^ 16.

(** Modelled from the spec: the [BIT] macro comes from [emu.h], which is
    not part of the driver file.  The spec reads [BIT(x, n)] as "bit [n]
    of [x]", a value that is 0 or 1: [(x >> n) & 1]. *)
Definition BIT (x n : Z) : Z := Z.land (Z.shiftr x n) 1.

(** ** Devices

    The driver talks to four devices.  The display and the DAC are only
    written: a call to one of them is recorded as a [device_call], in
    program order.  The sensor board and the two keypad ports are only
    read: their current readings form the [ports] of a call. *)

Inductive device_call : Type :=
| display_write_mx (x : Z)    (* m_display->write_mx(x) *)
| display_write_my (y : Z)    (* m_display->write_my(y) *)
| dac_write (level : Z).      (* m_dac->write(level) *)

Record ports : Type := Ports {
  board_read_file : Z -> Z;   (* m_board->read_file(x) *)
  inputs_read : Z -> Z        (* m_inputs[i]->read() *)
}.

(** Modelled from the spec: the declarations of [read_file] and of the
    ioport [read] are not part of the driver file.  The spec gives
    [readFile(index) -> 8-bit occupancy mask] and
    [readGroup(index) -> 8-bit raw level mask]. *)
Definition ports_ok (env : ports) : Prop :=
  (forall x, is_u8 (board_read_file env x)) /\
  (forall i, is_u8 (inputs_read env i)).

(** The [PORT_BIT] masks of [INPUT_PORTS_START( cpchess2 )] that are not
    [IPT_UNUSED]: the keys of IN.0 are bits 1-6, those of IN.1 bits 4-7.
    On wired ports every other line reads 0 (all lines are
    [IP_ACTIVE_HIGH]). *)
Definition port_keys (i : Z) : Z :=
  if i =? 0 then 0x7e else if i =? 1 then 0xf0 else 0.

Definition ports_wired (env : ports) : Prop :=
  forall i, Z.land (inputs_read env i) (Z.lnot (port_keys i)) = 0.

(** Readings used to run the handlers on: file 2 holds 0x24 and every
    other file 0x81; King is held on IN.0 and Take Back on IN.1. *)
Definition sample_ports : ports :=
  Ports (fun x => if x =? 2 then 0x24 else 0x81)
        (fun i => if i =? 0 then 0x02 else 0x10).

(** ** Driver state and the monad of its member functions *)

Record cpchess2_state : Type := State {
  m_inp_mux : Z               (* u8 m_inp_mux = 0; *)
}.

Definition initial : cpchess2_state := State 0.

Record outcome (A : Type) : Type := Outcome {
  value : A;
  final : cpchess2_state;
  calls : list device_call
}.
Arguments Outcome {A} _ _ _.
Arguments value {A} _.
Arguments final {A} _.
Arguments calls {A} _.

Definition M (A : Type) : Type := cpchess2_state -> outcome A.

Definition ret {A} (a : A) : M A := fun s => Outcome a s [].

Definition bind {A B} (m : M A) (k : A -> M B) : M B :=
  fun s =>
    let r := m s in
    let r' := k (value r) (final r) in
    Outcome (value r') (final r') (calls r ++ calls r').

Notation "x <- m ;; k" := (bind m (fun x => k))
  (at level 61, m at next level, right associativity).
Notation "m ;; k" := (bind m (fun _ => k))
  (at level 61, right associativity).

Definition get_inp_mux : M Z := fun s => Outcome (m_inp_mux s) s [].
Definition set_inp_mux (x : Z) : M unit := fun _ => Outcome tt (State x) [].
Definition call (c : device_call) : M unit := fun s => Outcome tt s [c].

(** [for (int i = lo; i < hi; i++) acc = body(i, acc);] *)
Fixpoint for_from {A} (i : Z) (n : nat) (body : Z -> A -> M A) (acc : A) : M A :=
  match n with
  | O => ret acc
  | S n' => acc' <- body i acc ;; for_from (i + 1) n' body acc'
  end.

Definition for_int {A} (lo hi : Z) (body : Z -> A -> M A) (acc : A) : M A :=
  for_from lo (Z.to_nat (hi - lo)) body acc.

(** ** I/O handlers *)

(** [template<int N> void cpchess2_state::mux_w(u8 data)] *)
Definition mux_w (N : Z) (data : Z) : M unit :=
  let shift := to_u8 (N * 4) in
  mux <- get_inp_mux ;;
  set_inp_mux
    (to_u8 (Z.lor (Z.land mux (Z.lnot (Z.shiftl 0xf shift)))
                  (Z.shiftl (Z.lxor data 0xf) shift))) ;;
  mux' <- get_inp_mux ;;
  call (display_write_mx mux').

(** [void cpchess2_state::control_w(u16 data)] *)
Definition control_w (data : Z) : M unit :=
  call (dac_write (BIT data 4)) ;;
  call (display_write_my (Z.land (Z.shiftr (Z.lnot data) 2) 3)).

(** Body of the first loop of [input_r]:
    [if (m_inp_mux & m_inputs[i]->read()) data |= 0x40 << i;] *)
Definition read_buttons (env : ports) (i data : Z) : M Z :=
  mux <- get_inp_mux ;;
  if Z.land mux (inputs_read env i) =? 0 then ret data
  else ret (to_u16 (Z.lor data (Z.shiftl 0x40 i))).

(** Body of the second loop of [input_r]:
    [if (BIT(m_inp_mux, i)) data |= m_board->read_file(i ^ 7) << 8;] *)
Definition read_chessboard (env : ports) (i data : Z) : M Z :=
  mux <- get_inp_mux ;;
  if BIT mux i =? 0 then ret data
  else ret (to_u16 (Z.lor data (Z.shiftl (board_read_file env (Z.lxor i 7)) 8))).

(** [input_r] up to, and without, its [return ~data]: the accumulator
    [data] after the two loops. *)
Definition input_r_data (env : ports) : M Z :=
  data <- for_int 0 2 (read_buttons env) 0 ;;
  for_int 0 8 (read_chessboard env) data.

(** [u16 cpchess2_state::input_r()] *)
Definition input_r (env : ports) : M Z :=
  data <- input_r_data env ;;
  ret (to_u16 (Z.lnot data)).

(** ** Reading the latch *)

(** The 4-bit slice of a mux value at bit offset [N * 4]. *)
Definition slice (N : Z) (mux : Z) : Z := Z.land (Z.shiftr mux (N * 4)) 0xf.

(** The upper byte, bits 8-15, of a 16-bit value. *)
Definition upper_byte (data : Z) : Z := Z.land (Z.shiftr data 8) 0xff.

(** ** The value of a read, as a function of the latch

    Both loop bodies of [input_r] only read [m_inp_mux]; what they
    compute from it is written here as plain functions, and
    [input_r_data_run] below shows that the handler computes [scan]. *)

Fixpoint iter_from {A} (i : Z) (n : nat) (f : Z -> A -> A) (acc : A) : A :=
  match n with
  | O => acc
  | S n' => iter_from (i + 1) n' f (f i acc)
  end.

Definition buttons_step (env : ports) (mux i data : Z) : Z :=
  if Z.land mux (inputs_read env i) =? 0 then data
  else to_u16 (Z.lor data (Z.shiftl 0x40 i)).

Definition chessboard_step (env : ports) (mux i data : Z) : Z :=
  if BIT mux i =? 0 then data
  else to_u16 (Z.lor data (Z.shiftl (board_read_file env (Z.lxor i 7)) 8)).

Definition scan (env : ports) (mux : Z) : Z :=
  iter_from 0 8 (chessboard_step env mux)
    (iter_from 0 2 (buttons_step env mux) 0).

(** A loop body that reads the latch and nothing else. *)
Definition reads_mux {A} (body : Z -> A -> M A) (f : Z -> Z -> A -> A) : Prop :=
  forall i acc s, body i acc s = Outcome (f (m_inp_mux s) i acc) s [].

(** The bits of [data] below bit [k] are all clear. *)
Definition low_clear (k data : Z) : Prop :=
  forall j, 0 <= j < k -> Z.testbit data j = false.

(** ** The machine configuration

    [cpchess2_state::cpchess2] binds four callbacks of the MCU to the
    handlers: [write_r<2>] to [mux_w<0>], [write_r<3>] to [mux_w<1>],
    [write_d] to [control_w] and [read_d] to [input_r].  An [access] is
    one such callback being invoked; a read carries the readings of the
    board and the keypad at that moment. *)

Inductive access : Type :=
| write_r2 (data : Z)
| write_r3 (data : Z)
| write_d (data : Z)
| read_d (env : ports).

Definition access_run (a : access) : M (list Z) :=
  match a with
  | write_r2 data => mux_w 0 data ;; ret []
  | write_r3 data => mux_w 1 data ;; ret []
  | write_d data => control_w data ;; ret []
  | read_d env => v <- input_r env ;; ret [v]
  end.

(** The accesses of a firmware run, in program order; the value is the
    list of what the reads returned. *)
Fixpoint run_trace (t : list access) : M (list Z) :=
  match t with
  | [] => ret []
  | a :: t' => vs <- access_run a ;; ws <- run_trace t' ;; ret (vs ++ ws)
  end.

(** [PWM_DISPLAY(config, m_display).set_size(2, 8)]: 2 rows of 8 columns. *)
Definition display_height : Z := 2.
Definition display_width : Z := 8.

(** A device call whose argument is within the device: a column mask of
    [display_width] bits, a row mask of [display_height] bits, a level of
    the 1-bit DAC. *)
Definition call_fits (c : device_call) : Prop :=
  match c with
  | display_write_mx x => 0 <= x < 2 ^ display_width
  | display_write_my y => 0 <= y < 2 ^ display_height
  | dac_write level => level = 0 \/ level = 1
  end.

(** The column mask the display holds after a list of calls, if any of
    them wrote one. *)
Fixpoint last_mx (cs : list device_call) : option Z :=
  match cs with
  | [] => None
  | c :: cs' =>
      match last_mx cs' with
      | Some x => Some x
      | None => match c with display_write_mx x => Some x | _ => None end
      end
  end.

(** Two independent 4-bit latches, each holding the complement of the
    last value written to its slot: what slot [N] holds after the
    accesses [t] when it held [cur] before. *)
Fixpoint latch (N : Z) (t : list access) (cur : Z) : Z :=
  match t with
  | [] => cur
  | write_r2 data :: t' => latch N t' (if N =? 0 then Z.lxor data 0xf else cur)
  | write_r3 data :: t' => latch N t' (if N =? 1 then Z.lxor data 0xf else cur)
  | _ :: t' => latch N t' cur
  end.

(** The values written to the two R ports are 4-bit values. *)
Definition nibble_access (a : access) : Prop :=
  match a with
  | write_r2 data | write_r3 data => 0 <= data < 16
  | _ => True
  end.

(** The readings of the files the mux selects, or-ed together in the
    order of the loop: file [i XOR 7] is selected by mux bit [i]. *)
Definition selected_files (env : ports) (mux : Z) : Z :=
  fold_left
    (fun acc i =>
       Z.lor acc (if Z.testbit mux i then board_read_file env (Z.lxor i 7) else 0))
    [0; 1; 2; 3; 4; 5; 6; 7] 0.

(** Readings the port table allows: King held on IN.0, Take Back on
    IN.1, an empty board. *)
Definition wired_ports : ports :=
  Ports (fun _ => 0)
        (fun i => if i =? 0 then 0x02 else if i =? 1 then 0x10 else 0).

(** ** Bit-level reasoning *)

Lemma testbit_above (w x i : Z) :
  0 <= x < 2 ^ w -> 0 <= w <= i -> Z.testbit x i = false.
Proof.
  intros Hx Hw.
  destruct (Z.eq_dec x 0) as [->|Hnz]; [apply Z.bits_0|].
  assert (Hlog : Z.log2 x < w) by (apply Z.log2_lt_pow2; lia).
  apply Z.bits_above_log2; lia.
Qed.

Lemma testbit_u8_high (x i : Z) : is_u8 x -> 8 <= i -> Z.testbit x i = false.
Proof. intros Hx Hi. apply (testbit_above 8); [exact Hx | lia]. Qed.

Lemma testbit_to_u8 (x i : Z) :
  Z.testbit (to_u8 x) i = (i <? 8) && Z.testbit x i.
Proof. unfold to_u8. apply Z.testbit_mod_pow2. lia. Qed.

Lemma testbit_to_u16 (x i : Z) :
  Z.testbit (to_u16 x) i = (i <? 16) && Z.testbit x i.
Proof. unfold to_u16. apply Z.testbit_mod_pow2. lia. Qed.

Lemma testbit_0xf (i : Z) : 0 <= i -> Z.testbit 0xf i = (i <? 4).
Proof. intros Hi. change 0xf with (Z.ones 4). apply Z.testbit_ones_nonneg; lia. Qed.

Lemma testbit_0xff (i : Z) : 0 <= i -> Z.testbit 0xff i = (i <? 8).
Proof. intros Hi. change 0xff with (Z.ones 8). apply Z.testbit_ones_nonneg; lia. Qed.

Lemma testbit_0xf0 (i : Z) : 0 <= i -> Z.testbit 0xf0 i = (4 <=? i) && (i <? 8).
Proof.
  intros Hi. change 0xf0 with (Z.shiftl (Z.ones 4) 4).
  rewrite Z.shiftl_spec by lia.
  destruct (Z.leb_spec 4 i) as [H4|H4].
  - rewrite Z.testbit_ones_nonneg by lia.
    destruct (Z.ltb_spec (i - 4) 4), (Z.ltb_spec i 8); simpl; lia || reflexivity.
  - apply Z.testbit_neg_r. lia.
Qed.

Lemma to_u8_range (x : Z) : is_u8 (to_u8 x).
Proof. unfold is_u8, to_u8. apply Z.mod_pos_bound. lia. Qed.

Lemma to_u16_range (x : Z) : is_u16 (to_u16 x).
Proof. unfold is_u16, to_u16. apply Z.mod_pos_bound. lia. Qed.

(** Rewriting [Z.testbit] through the operators of the handlers, at a
    bit index known to be non-negative. *)
Ltac testbits :=
  repeat first
    [ rewrite testbit_to_u8 | rewrite testbit_to_u16
    | rewrite Z.land_spec | rewrite Z.lor_spec | rewrite Z.lxor_spec
    | rewrite Z.lnot_spec by lia
    | rewrite Z.shiftr_spec by lia
    | rewrite Z.shiftl_spec by lia
    | rewrite testbit_0xf by lia
    | rewrite testbit_0xff by lia
    | rewrite testbit_0xf0 by lia ].

(** Deciding the comparisons on the bit index that are left. *)
Ltac index_cases :=
  repeat match goal with
  | |- context [?a <? ?b] => destruct (Z.ltb_spec a b)
  | |- context [?a <=? ?b] => destruct (Z.leb_spec a b)
  end;
  cbn [andb orb negb xorb]; try lia; try reflexivity.

Lemma sample_ports_ok : ports_ok sample_ports.
Proof.
  split; intros x; unfold is_u8; cbn [sample_ports board_read_file inputs_read].
  - destruct (x =? 2); lia.
  - destruct (x =? 0); lia.
Qed.

(** ** The handlers, run *)

Lemma mux_w_run (N data : Z) (s : cpchess2_state) :
  let mux' :=
    to_u8 (Z.lor (Z.land (m_inp_mux s) (Z.lnot (Z.shiftl 0xf (to_u8 (N * 4)))))
                 (Z.shiftl (Z.lxor data 0xf) (to_u8 (N * 4)))) in
  mux_w N data s = Outcome tt (State mux') [display_write_mx mux'].
Proof. reflexivity. Qed.

Lemma mux_w_u8 (N data : Z) (s : cpchess2_state) :
  is_u8 (m_inp_mux (final (mux_w N data s))).
Proof. rewrite mux_w_run. cbn [final m_inp_mux]. apply to_u8_range. Qed.

(** Slot 0, bit by bit: the low slice takes the complement of [data],
    the bits above it are those of the old mux, or-ed with those of
    [data] itself. *)
Lemma mux_w0_testbit (data : Z) (s : cpchess2_state) (i : Z) :
  0 <= i ->
  Z.testbit (m_inp_mux (final (mux_w 0 data s))) i =
  (i <? 8) && (if i <? 4 then negb (Z.testbit data i)
               else Z.testbit (m_inp_mux s) i || Z.testbit data i).
Proof.
  intros Hi. rewrite mux_w_run. cbn [final m_inp_mux].
  change (to_u8 (0 * 4)) with 0.
  rewrite testbit_to_u8. f_equal.
  testbits. rewrite Z.sub_0_r.
  destruct (Z.ltb_spec i 4); cbn [negb andb orb].
  - rewrite Bool.andb_false_r, Bool.xorb_true_r. reflexivity.
  - rewrite Bool.andb_true_r, Bool.xorb_false_r. reflexivity.
Qed.

(** Slot 1, bit by bit: the high slice takes the complement of the low
    four bits of [data]; the low slice keeps the old mux. *)
Lemma mux_w1_testbit (data : Z) (s : cpchess2_state) (i : Z) :
  0 <= i ->
  Z.testbit (m_inp_mux (final (mux_w 1 data s))) i =
  (i <? 8) && (if i <? 4 then Z.testbit (m_inp_mux s) i
               else negb (Z.testbit data (i - 4))).
Proof.
  intros Hi. rewrite mux_w_run. cbn [final m_inp_mux].
  change (to_u8 (1 * 4)) with 4.
  rewrite testbit_to_u8.
  destruct (Z.ltb_spec i 8) as [H8|H8]; cbn [andb]; [|reflexivity].
  testbits.
  destruct (Z.ltb_spec i 4) as [H4|H4].
  - rewrite !(Z.testbit_neg_r _ (i - 4)) by lia.
    cbn [negb andb orb xorb]. rewrite Bool.andb_true_r, Bool.orb_false_r. reflexivity.
  - rewrite testbit_0xf by lia.
    destruct (Z.ltb_spec (i - 4) 4); [|lia].
    cbn [negb]. rewrite Bool.andb_false_r, Bool.xorb_true_r. reflexivity.
Qed.

Lemma slice_testbit (N mux i : Z) :
  0 <= N -> 0 <= i ->
  Z.testbit (slice N mux) i = Z.testbit mux (i + N * 4) && (i <? 4).
Proof. intros HN Hi. unfold slice. testbits. reflexivity. Qed.

(** ** The mux register *)

(** C1. For every 4-bit value [v] and slot [N] in {0,1}, [mux_w<N>(v)]
    sets the 4-bit slice of the mux at bit offset [N*4] to [v XOR 0xF] and
    leaves the other 4-bit slice as it was. *)
Theorem mux_w_slice (N v : Z) (s : cpchess2_state) :
  N = 0 \/ N = 1 ->
  0 <= v < 16 ->
  slice N (m_inp_mux (final (mux_w N v s))) = Z.lxor v 0xf /\
  slice (1 - N) (m_inp_mux (final (mux_w N v s))) = slice (1 - N) (m_inp_mux s).
Proof.
  intros [-> | ->] Hv; change (1 - 0) with 1; change (1 - 1) with 0; split;
    apply Z.bits_inj'; intros i Hi; rewrite !slice_testbit by lia.
  - rewrite mux_w0_testbit by lia. testbits.
    destruct (Z.ltb_spec i 4) as [H4|H4].
    + replace (i + 0 * 4) with i by lia.
      index_cases. rewrite Bool.andb_true_r, Bool.xorb_true_r. reflexivity.
    + rewrite (testbit_above 4 v i) by lia.
      rewrite Bool.andb_false_r. reflexivity.
  - rewrite mux_w0_testbit by lia.
    destruct (Z.ltb_spec i 4) as [H4|H4]; [|rewrite !Bool.andb_false_r; reflexivity].
    rewrite (testbit_above 4 v (i + 1 * 4)) by lia.
    index_cases. rewrite Bool.orb_false_r. reflexivity.
  - rewrite mux_w1_testbit by lia. testbits.
    destruct (Z.ltb_spec i 4) as [H4|H4].
    + replace (i + 1 * 4 - 4) with i by lia.
      index_cases. rewrite Bool.andb_true_r, Bool.xorb_true_r. reflexivity.
    + rewrite (testbit_above 4 v i) by lia.
      rewrite Bool.andb_false_r. reflexivity.
  - rewrite mux_w1_testbit by lia.
    destruct (Z.ltb_spec i 4) as [H4|H4]; [|rewrite !Bool.andb_false_r; reflexivity].
    replace (i + 0 * 4) with i by lia.
    index_cases.
Qed.

(** C10. [mux_w<1>] leaves bits 0-3 of the mux as they were, for every
    8-bit [data], also above 0xF: what [(data ^ 0xf) << 4] carries past
    bit 7 is cut off by the conversion to [u8]. *)
Theorem mux_w1_keeps_low_slice (data : Z) (s : cpchess2_state) :
  is_u8 data ->
  slice 0 (m_inp_mux (final (mux_w 1 data s))) = slice 0 (m_inp_mux s).
Proof.
  intros _. apply Z.bits_inj'; intros i Hi. rewrite !slice_testbit by lia.
  rewrite mux_w1_testbit by lia.
  replace (i + 0 * 4) with i by lia.
  index_cases.
Qed.

Lemma mux_w1_keeps_low_slice_witness :
  slice 0 (m_inp_mux (final (mux_w 1 0xa5 (State 0x3c)))) = slice 0 0x3c.
Proof. apply (mux_w1_keeps_low_slice 0xa5 (State 0x3c)). unfold is_u8. lia. Defined.

Lemma mux_w_slice_witness :
  slice 1 (m_inp_mux (final (mux_w 1 0x6 (State 0x3c)))) = Z.lxor 0x6 0xf /\
  slice (1 - 1) (m_inp_mux (final (mux_w 1 0x6 (State 0x3c)))) = slice (1 - 1) 0x3c.
Proof. apply (mux_w_slice 1 0x6 (State 0x3c)); [right; reflexivity | lia]. Defined.

(** The write to slot 1 ignores bits 4-7 of [data]. *)
Lemma mux_w1_masked (data : Z) (s : cpchess2_state) :
  mux_w 1 data s = mux_w 1 (Z.land data 0xf) s.
Proof.
  assert (E : m_inp_mux (final (mux_w 1 data s)) =
              m_inp_mux (final (mux_w 1 (Z.land data 0xf) s))).
  { apply Z.bits_inj'; intros i Hi. rewrite !mux_w1_testbit by lia.
    destruct (Z.ltb_spec i 8) as [H8|H8]; cbn [andb]; [|reflexivity].
    destruct (Z.ltb_spec i 4) as [H4|H4]; [reflexivity|].
    testbits. index_cases. rewrite Bool.andb_true_r. reflexivity. }
  rewrite !mux_w_run in *. cbn [final m_inp_mux] in E. cbv zeta. rewrite E. reflexivity.
Qed.

(** The write to slot 0 does not: its bits 4-7 are or-ed into the mux. *)
Lemma mux_w0_unmasked (data : Z) (s : cpchess2_state) :
  is_u8 data ->
  m_inp_mux (final (mux_w 0 data s)) =
  Z.lor (m_inp_mux (final (mux_w 0 (Z.land data 0xf) s))) (Z.land data 0xf0).
Proof.
  intros Hd. apply Z.bits_inj'; intros i Hi.
  rewrite Z.lor_spec, !mux_w0_testbit by lia. testbits.
  destruct (Z.ltb_spec i 8) as [H8|H8]; cbn [andb].
  - destruct (Z.ltb_spec i 4) as [H4|H4].
    + index_cases. rewrite Bool.andb_true_r, Bool.andb_false_r, Bool.orb_false_r. reflexivity.
    + index_cases. rewrite Bool.andb_true_r, Bool.andb_false_r, Bool.orb_false_r. reflexivity.
  - rewrite (testbit_u8_high data i) by (assumption || lia). reflexivity.
Qed.

(** ** The composite read, run *)

Lemma for_from_run {A} (body : Z -> A -> M A) (f : Z -> Z -> A -> A) :
  reads_mux body f ->
  forall n i acc s,
    for_from i n body acc s = Outcome (iter_from i n (f (m_inp_mux s)) acc) s [].
Proof.
  intros Hbody. induction n as [|n IH]; intros i acc s; cbn [for_from iter_from].
  - reflexivity.
  - unfold bind. rewrite Hbody. cbn [value final calls].
    rewrite IH. reflexivity.
Qed.

Lemma read_buttons_reads (env : ports) :
  reads_mux (read_buttons env) (buttons_step env).
Proof.
  intros i data s. unfold read_buttons, buttons_step, bind, get_inp_mux.
  cbn [value final calls].
  destruct (Z.land (m_inp_mux s) (inputs_read env i) =? 0); reflexivity.
Qed.

Lemma read_chessboard_reads (env : ports) :
  reads_mux (read_chessboard env) (chessboard_step env).
Proof.
  intros i data s. unfold read_chessboard, chessboard_step, bind, get_inp_mux.
  cbn [value final calls].
  destruct (BIT (m_inp_mux s) i =? 0); reflexivity.
Qed.

Lemma input_r_data_run (env : ports) (s : cpchess2_state) :
  input_r_data env s = Outcome (scan env (m_inp_mux s)) s [].
Proof.
  unfold input_r_data, for_int, bind.
  rewrite (for_from_run _ _ (read_buttons_reads env)). cbn [value final calls].
  rewrite (for_from_run _ _ (read_chessboard_reads env)). reflexivity.
Qed.

Lemma input_r_run (env : ports) (s : cpchess2_state) :
  input_r env s = Outcome (to_u16 (Z.lnot (scan env (m_inp_mux s)))) s [].
Proof. unfold input_r, bind. rewrite input_r_data_run. reflexivity. Qed.

Lemma input_r_u16 (env : ports) (s : cpchess2_state) :
  is_u16 (value (input_r env s)).
Proof. rewrite input_r_run. cbn [value]. apply to_u16_range. Qed.

(** The end-to-end scenario of the spec: 0x0 to slot 0 and 0xf to slot 1
    leave the mux at 0x0f; with file 7 reading 0x01 and everything else
    0x00 the composite read then returns 0xfeff. *)
Example scenario_mux_then_read :
  let board := Ports (fun x => if x =? 7 then 0x01 else 0x00) (fun _ => 0x00) in
  (mux_w 0 0x0 ;; mux_w 1 0xf ;; input_r board) initial =
  Outcome 0xfeff (State 0x0f) [display_write_mx 0x0f; display_write_mx 0x0f].
Proof. reflexivity. Qed.

Lemma control_w_run (data : Z) (s : cpchess2_state) :
  control_w data s =
  Outcome tt s [dac_write (BIT data 4);
                display_write_my (Z.land (Z.shiftr (Z.lnot data) 2) 3)].
Proof. reflexivity. Qed.

(** Loop invariants: a property kept by every step from index [lo] on
    holds after the loop. *)
Lemma iter_from_inv {A} (P : A -> Prop) (f : Z -> A -> A) (lo : Z) :
  (forall i acc, lo <= i -> P acc -> P (f i acc)) ->
  forall n i acc, lo <= i -> P acc -> P (iter_from i n f acc).
Proof.
  intros Hstep. induction n as [|n IH]; intros i acc Hi Hacc; cbn [iter_from].
  - exact Hacc.
  - apply IH; [lia | apply Hstep; assumption].
Qed.

Lemma buttons_step_low_clear (env : ports) (mux i data : Z) :
  0 <= i -> low_clear 6 data -> low_clear 6 (buttons_step env mux i data).
Proof.
  intros Hi Hd j Hj. unfold buttons_step.
  destruct (Z.land mux (inputs_read env i) =? 0); [apply Hd; exact Hj|].
  testbits. rewrite (Hd j Hj).
  change 0x40 with (2 ^ 6). rewrite Z.pow2_bits_false by lia.
  index_cases.
Qed.

Lemma chessboard_step_low_clear (env : ports) (mux i data : Z) :
  low_clear 6 data -> low_clear 6 (chessboard_step env mux i data).
Proof.
  intros Hd j Hj. unfold chessboard_step.
  destruct (BIT mux i =? 0); [apply Hd; exact Hj|].
  testbits. rewrite (Hd j Hj), Z.testbit_neg_r by lia.
  index_cases.
Qed.

Lemma scan_low_clear (env : ports) (mux : Z) : low_clear 6 (scan env mux).
Proof.
  unfold scan.
  apply (iter_from_inv (low_clear 6) _ 0); [| lia |].
  - intros i acc _. apply chessboard_step_low_clear.
  - apply (iter_from_inv (low_clear 6) _ 0); [| lia |].
    + intros i acc Hi. apply buttons_step_low_clear. exact Hi.
    + intros j _. apply Z.bits_0.
Qed.

Lemma scan_0 (env : ports) : scan env 0 = 0.
Proof.
  unfold scan.
  apply (iter_from_inv (fun d => d = 0) _ 0); [| lia |].
  - intros i acc _ ->. unfold chessboard_step, BIT.
    rewrite Z.shiftr_0_l. reflexivity.
  - apply (iter_from_inv (fun d => d = 0) _ 0); [| lia | reflexivity].
    intros i acc _ ->. unfold buttons_step. rewrite Z.land_0_l. reflexivity.
Qed.

Lemma scan_unroll (env : ports) (mux : Z) :
  scan env mux =
  chessboard_step env mux 7 (chessboard_step env mux 6
    (chessboard_step env mux 5 (chessboard_step env mux 4
      (chessboard_step env mux 3 (chessboard_step env mux 2
        (chessboard_step env mux 1 (chessboard_step env mux 0
          (buttons_step env mux 1 (buttons_step env mux 0 0))))))))).
Proof. reflexivity. Qed.

(** After the first loop the accumulator is one of 0x00, 0x40, 0x80, 0xc0. *)
Lemma buttons_u8 (env : ports) (mux : Z) :
  is_u8 (buttons_step env mux 1 (buttons_step env mux 0 0)).
Proof.
  unfold buttons_step, is_u8.
  destruct (Z.land mux (inputs_read env 0) =? 0),
           (Z.land mux (inputs_read env 1) =? 0);
    vm_compute; split; (discriminate || reflexivity).
Qed.

Lemma upper_byte_lor (d r : Z) :
  is_u8 d -> is_u8 r -> upper_byte (to_u16 (Z.lor d (Z.shiftl r 8))) = r.
Proof.
  intros Hd Hr. apply Z.bits_inj'; intros i Hi. unfold upper_byte. testbits.
  rewrite (testbit_u8_high d (i + 8)) by (assumption || lia).
  replace (i + 8 - 8) with i by lia. cbn [orb].
  destruct (Z.ltb_spec i 8) as [H8|H8].
  - index_cases. rewrite Bool.andb_true_r. reflexivity.
  - rewrite (testbit_u8_high r i) by (assumption || lia).
    rewrite Bool.andb_false_r. reflexivity.
Qed.

Lemma low_byte_lor (d x i : Z) :
  0 <= i < 8 -> Z.testbit (to_u16 (Z.lor d (Z.shiftl x 8))) i = Z.testbit d i.
Proof.
  intros Hi. testbits. rewrite (Z.testbit_neg_r x) by lia.
  index_cases. rewrite Bool.orb_false_r. reflexivity.
Qed.

Lemma land_1_testbit (x : Z) : (Z.land 1 x =? 0) = negb (Z.testbit x 0).
Proof.
  rewrite Z.land_comm. change 1 with (Z.ones 1) at 1.
  rewrite Z.land_ones by lia. rewrite Z.bit0_eqb. change (2 ^ 1) with 2.
  assert (H : x mod 2 = 0 \/ x mod 2 = 1) by (pose proof (Z.mod_pos_bound x 2); lia).
  destruct H as [-> | ->]; reflexivity.
Qed.

(** Evaluating the tests of the second loop at a known mux. *)
Ltac eval_BIT :=
  repeat match goal with
  | |- context [BIT ?m ?j =? 0] =>
      let b := eval vm_compute in (BIT m j =? 0) in
      change (BIT m j =? 0) with b
  end;
  cbv iota.

(** ** The composite read *)

(** C2. With bit [i] of the mux set and all others clear, the upper byte
    of the accumulator of [input_r], before the final complement, is the
    board's reading of file [i XOR 7]. *)
Theorem input_r_bit_reversal (env : ports) (s : cpchess2_state) (i : Z) :
  ports_ok env ->
  0 <= i < 8 ->
  m_inp_mux s = 2 ^ i ->
  upper_byte (value (input_r_data env s)) = board_read_file env (Z.lxor i 7).
Proof.
  intros [Hboard _] Hi Hmux.
  rewrite input_r_data_run, Hmux. cbn [value]. rewrite scan_unroll.
  pose proof (buttons_u8 env (2 ^ i)) as Hd.
  assert (Hcases : i = 0 \/ i = 1 \/ i = 2 \/ i = 3 \/ i = 4 \/ i = 5 \/ i = 6 \/ i = 7)
    by lia.
  unfold chessboard_step.
  destruct Hcases as [-> | [-> | [-> | [-> | [-> | [-> | [-> | ->]]]]]]];
    eval_BIT; apply upper_byte_lor; auto.
Qed.

Lemma input_r_bit_reversal_witness :
  upper_byte (value (input_r_data sample_ports (State 0x20))) =
  board_read_file sample_ports (Z.lxor 5 7).
Proof.
  apply (input_r_bit_reversal sample_ports (State 0x20) 5).
  - exact sample_ports_ok.
  - lia.
  - reflexivity.
Defined.




(** The hypothesis on IN.1 is what keeps bit 7 clear: a reading of
    group 1 with bit 0 set, which the port table of the driver rules out,
    would set it. *)
Example group_gating_off_table :
  value (input_r_data (Ports (fun _ => 0) (fun _ => 0x01)) (State 1)) = 0xc0.
Proof. reflexivity. Qed.

(** On the ports as [INPUT_PORTS_START( cpchess2 )] wires them, bit 0 of
    neither group is a key: with only bit 0 of the mux set, no key bit is
    reported at all. *)
Lemma input_r_wired_mux_bit0 (env : ports) (s : cpchess2_state) :
  ports_wired env ->
  m_inp_mux s = 1 ->
  Z.testbit (value (input_r_data env s)) 6 = false /\
  Z.testbit (value (input_r_data env s)) 7 = false.
Proof.
  intros Hwired Hmux.
  assert (Hbit0 : forall i, i = 0 \/ i = 1 -> Z.testbit (inputs_read env i) 0 = false).
  { intros i Hi. pose proof (Hwired i) as Hw.
    apply (f_equal (fun x => Z.testbit x 0)) in Hw.
    rewrite Z.land_spec, Z.bits_0 in Hw.
    destruct Hi as [-> | ->]; vm_compute (Z.testbit (Z.lnot _) 0) in Hw;
      rewrite Bool.andb_true_r in Hw; exact Hw. }
  rewrite input_r_data_run, Hmux. cbn [value]. rewrite scan_unroll.
  unfold chessboard_step. eval_BIT.
  rewrite !low_byte_lor by lia.
  unfold buttons_step. rewrite !land_1_testbit, !Hbit0 by auto.
  split; reflexivity.
Qed.

(** C9. Whatever the mux and the readings, bits 0-5 of the value that
    [input_r] returns are all 1. *)
Theorem input_r_low_bits_set (env : ports) (s : cpchess2_state) :
  Z.land (value (input_r env s)) 0x3f = 0x3f.
Proof.
  rewrite input_r_run. cbn [value].
  apply Z.bits_inj'; intros i Hi. testbits.
  change 0x3f with (Z.ones 6). rewrite Z.testbit_ones_nonneg by lia.
  destruct (Z.ltb_spec i 6) as [H6|H6]; [|apply Bool.andb_false_r].
  rewrite (scan_low_clear env (m_inp_mux s) i) by lia.
  index_cases.
Qed.

(** C7. With no mux line selected the accumulator of [input_r] stays 0
    and the read returns 0xFFFF, whatever the board and the keypad
    report. *)
Theorem input_r_mux_0 (env : ports) (s : cpchess2_state) :
  m_inp_mux s = 0 ->
  value (input_r_data env s) = 0 /\ value (input_r env s) = 0xffff.
Proof.
  intros Hmux. rewrite input_r_run, input_r_data_run, Hmux. cbn [value].
  rewrite scan_0. split; reflexivity.
Qed.

Lemma input_r_mux_0_witness :
  value (input_r_data sample_ports initial) = 0 /\
  value (input_r sample_ports initial) = 0xffff.
Proof. apply (input_r_mux_0 sample_ports initial). reflexivity. Defined.

(** C5. [input_r] changes nothing and calls no device that is written
    to; a second read on the same readings returns the value of the
    first. *)
Theorem input_r_deterministic (env : ports) (s : cpchess2_state) :
  final (input_r env s) = s /\
  calls (input_r env s) = [] /\
  input_r env (final (input_r env s)) = input_r env s /\
  value ((v1 <- input_r env ;; v2 <- input_r env ;; ret (v1 =? v2)) s) = true.
Proof.
  unfold bind. rewrite !input_r_run. cbn [value final calls].
  rewrite ?input_r_run. cbn [value final calls ret].
  rewrite Z.eqb_refl. repeat split.
Qed.

(** C8. Neither [control_w] nor [input_r] changes the mux, whatever the
    value written and whatever the readings: of the handlers, only
    [mux_w<0>] and [mux_w<1>] assign it. *)
Theorem mux_only_written_by_mux_w (data : Z) (env : ports) (s : cpchess2_state) :
  final (control_w data s) = s /\ final (input_r env s) = s.
Proof. rewrite control_w_run, input_r_run. split; reflexivity. Qed.

(** ** The control write *)

Lemma row_select_value (data : Z) :
  Z.land (Z.shiftr (Z.lnot data) 2) 0x3 = 3 - Z.land (Z.shiftr data 2) 0x3.
Proof.
  change 0x3 with (Z.ones 2) at 1 3.
  rewrite !Z.land_ones, !Z.shiftr_div_pow2 by lia.
  unfold Z.lnot. change (2 ^ 2) with 4.
  Z.div_mod_to_equations. lia.
Qed.

Lemma row_select_u16 (data : Z) :
  Z.land (Z.shiftr (to_u16 (Z.lnot data)) 2) 0x3 =
  Z.land (Z.shiftr (Z.lnot data) 2) 0x3.
Proof.
  apply Z.bits_inj'; intros i Hi. testbits.
  change 0x3 with (Z.ones 2). rewrite Z.testbit_ones_nonneg by lia.
  destruct (Z.ltb_spec i 2) as [H2|H2]; [|rewrite !Bool.andb_false_r; reflexivity].
  index_cases.
Qed.

(** C6. The row that [control_w] hands to the display is
    [(~data >> 2) & 3], with [~] taken on the promoted [int] or on the 16
    bits of [data] alike; bits 2-3 of [data] being 00, 01, 10, 11 give
    rows 3, 2, 1, 0. *)
Theorem control_w_row (data : Z) (s : cpchess2_state) :
  is_u16 data ->
  exists row,
    calls (control_w data s) = [dac_write (BIT data 4); display_write_my row] /\
    row = Z.land (Z.shiftr (Z.lnot data) 2) 0x3 /\
    row = Z.land (Z.shiftr (to_u16 (Z.lnot data)) 2) 0x3 /\
    (Z.land (Z.shiftr data 2) 0x3 = 0 -> row = 3) /\
    (Z.land (Z.shiftr data 2) 0x3 = 1 -> row = 2) /\
    (Z.land (Z.shiftr data 2) 0x3 = 2 -> row = 1) /\
    (Z.land (Z.shiftr data 2) 0x3 = 3 -> row = 0).
Proof.
  intros _. exists (Z.land (Z.shiftr (Z.lnot data) 2) 0x3).
  rewrite control_w_run. cbn [calls]. rewrite row_select_u16.
  pose proof (row_select_value data) as Hrow.
  repeat split; lia.
Qed.

Lemma control_w_row_witness :
  exists row,
    calls (control_w 0x18 initial) = [dac_write (BIT 0x18 4); display_write_my row] /\
    row = Z.land (Z.shiftr (Z.lnot 0x18) 2) 0x3 /\
    row = Z.land (Z.shiftr (to_u16 (Z.lnot 0x18)) 2) 0x3 /\
    (Z.land (Z.shiftr 0x18 2) 0x3 = 0 -> row = 3) /\
    (Z.land (Z.shiftr 0x18 2) 0x3 = 1 -> row = 2) /\
    (Z.land (Z.shiftr 0x18 2) 0x3 = 2 -> row = 1) /\
    (Z.land (Z.shiftr 0x18 2) 0x3 = 3 -> row = 0).
Proof. apply (control_w_row 0x18 initial). unfold is_u16. lia. Defined.

(** ** Values wider than four bits *)

(** C4, as amended. For every 8-bit [data], [mux_w<1>(data)] does what
    [mux_w<1>(data & 0xf)] does; [mux_w<0>(data)] leaves the mux of
    [mux_w<0>(data & 0xf)] or-ed with [data & 0xf0]: bits 4-7 of [data]
    are set in the slice of slot 1. *)
Theorem mux_w_wide_data (data : Z) (s : cpchess2_state) :
  is_u8 data ->
  mux_w 1 data s = mux_w 1 (Z.land data 0xf) s /\
  m_inp_mux (final (mux_w 0 data s)) =
    Z.lor (m_inp_mux (final (mux_w 0 (Z.land data 0xf) s))) (Z.land data 0xf0).
Proof.
  intros Hd. split; [apply mux_w1_masked | apply mux_w0_unmasked; exact Hd].
Qed.

Lemma mux_w_wide_data_witness :
  mux_w 1 0x9a (State 0x3c) = mux_w 1 (Z.land 0x9a 0xf) (State 0x3c) /\
  m_inp_mux (final (mux_w 0 0x9a (State 0x3c))) =
    Z.lor (m_inp_mux (final (mux_w 0 (Z.land 0x9a 0xf) (State 0x3c))))
          (Z.land 0x9a 0xf0).
Proof. apply (mux_w_wide_data 0x9a (State 0x3c)). unfold is_u8. lia. Defined.

(** C4 as stated fails for slot 0: writing 0x10 to the cleared mux
    leaves 0x1f, writing [0x10 & 0xf] leaves 0x0f, and the slice of
    slot 1 has gone from 0 to 1. *)
Lemma mux_w0_wide_data_differs :
  ~ (forall (N data : Z) (s : cpchess2_state),
        N = 0 \/ N = 1 ->
        is_u8 data ->
        is_u8 (m_inp_mux s) ->
        final (mux_w N data s) = final (mux_w N (Z.land data 0xf) s) /\
        slice (1 - N) (m_inp_mux (final (mux_w N data s))) =
          slice (1 - N) (m_inp_mux s)).
Proof.
  intros H.
  destruct (H 0 0x10 initial) as [Hsame _].
  - left; reflexivity.
  - unfold is_u8; lia.
  - unfold is_u8; cbn [initial m_inp_mux]; lia.
  - vm_compute in Hsame. discriminate Hsame.
Qed.

(** ** More on the mux register *)

Lemma state_eq (s s' : cpchess2_state) : m_inp_mux s = m_inp_mux s' -> s = s'.
Proof. destruct s as [m], s' as [m']. cbn [m_inp_mux]. intros ->. reflexivity. Qed.

Lemma bits_eq_u8 (x y : Z) :
  is_u8 x -> is_u8 y ->
  (forall i, 0 <= i < 8 -> Z.testbit x i = Z.testbit y i) -> x = y.
Proof.
  intros Hx Hy H. apply Z.bits_inj'; intros i Hi.
  destruct (Z.ltb_spec i 8) as [H8|H8]; [apply H; lia|].
  rewrite !testbit_u8_high by (assumption || lia). reflexivity.
Qed.

(** X1. Writing the same value to the same slot a second time changes
    nothing: the mux is the same and the display is handed the same
    column mask again. *)
Theorem mux_w_idempotent (N data : Z) (s : cpchess2_state) :
  N = 0 \/ N = 1 ->
  mux_w N data (final (mux_w N data s)) = mux_w N data s.
Proof.
  intros HN.
  assert (E : m_inp_mux (final (mux_w N data (final (mux_w N data s)))) =
              m_inp_mux (final (mux_w N data s))).
  { apply bits_eq_u8; try apply mux_w_u8. intros i Hi.
    destruct HN as [-> | ->].
    - rewrite !mux_w0_testbit by lia.
      destruct (Z.ltb_spec i 8); [|lia]; destruct (Z.ltb_spec i 4); cbn [andb];
        [reflexivity | btauto].
    - rewrite !mux_w1_testbit by lia.
      destruct (Z.ltb_spec i 8); [|lia]; destruct (Z.ltb_spec i 4); cbn [andb];
        reflexivity. }
  rewrite !mux_w_run in *. cbn [final m_inp_mux] in *. cbv zeta. rewrite E. reflexivity.
Qed.

Lemma mux_w_idempotent_witness :
  mux_w 0 0x35 (final (mux_w 0 0x35 (State 0xc3))) = mux_w 0 0x35 (State 0xc3).
Proof. apply (mux_w_idempotent 0 0x35 (State 0xc3)). left; reflexivity. Defined.

(** The two slices of the mux after a write, slot by slot. *)
Lemma mux_w0_slice0 (data : Z) (s : cpchess2_state) :
  0 <= data < 16 ->
  slice 0 (m_inp_mux (final (mux_w 0 data s))) = Z.lxor data 0xf.
Proof.
  intros Hd. apply Z.bits_inj'; intros i Hi.
  rewrite slice_testbit, mux_w0_testbit by lia. testbits.
  replace (i + 0 * 4) with i by lia.
  destruct (Z.ltb_spec i 4) as [H4|H4].
  - index_cases. rewrite Bool.andb_true_r, Bool.xorb_true_r. reflexivity.
  - rewrite (testbit_above 4 data i) by lia. rewrite Bool.andb_false_r. reflexivity.
Qed.

Lemma mux_w0_slice1 (data : Z) (s : cpchess2_state) :
  0 <= data < 16 ->
  slice 1 (m_inp_mux (final (mux_w 0 data s))) = slice 1 (m_inp_mux s).
Proof.
  intros Hd. apply Z.bits_inj'; intros i Hi.
  rewrite !slice_testbit, mux_w0_testbit by lia.
  destruct (Z.ltb_spec i 4) as [H4|H4]; [|rewrite !Bool.andb_false_r; reflexivity].
  rewrite (testbit_above 4 data (i + 1 * 4)) by lia.
  index_cases. rewrite Bool.orb_false_r. reflexivity.
Qed.

Lemma mux_w1_slice1 (data : Z) (s : cpchess2_state) :
  0 <= data < 16 ->
  slice 1 (m_inp_mux (final (mux_w 1 data s))) = Z.lxor data 0xf.
Proof.
  intros Hd. apply Z.bits_inj'; intros i Hi.
  rewrite slice_testbit, mux_w1_testbit by lia. testbits.
  replace (i + 1 * 4 - 4) with i by lia.
  destruct (Z.ltb_spec i 4) as [H4|H4].
  - index_cases. rewrite Bool.andb_true_r, Bool.xorb_true_r. reflexivity.
  - rewrite (testbit_above 4 data i) by lia. rewrite Bool.andb_false_r. reflexivity.
Qed.

Lemma mux_w1_slice0 (data : Z) (s : cpchess2_state) :
  slice 0 (m_inp_mux (final (mux_w 1 data s))) = slice 0 (m_inp_mux s).
Proof.
  apply Z.bits_inj'; intros i Hi.
  rewrite !slice_testbit, mux_w1_testbit by lia.
  replace (i + 0 * 4) with i by lia. index_cases.
Qed.

(** An 8-bit mux is its two slices put side by side. *)
Lemma mux_of_slices (mux : Z) :
  is_u8 mux -> mux = Z.lor (slice 0 mux) (Z.shiftl (slice 1 mux) 4).
Proof.
  intros Hm. apply Z.bits_inj'; intros i Hi.
  rewrite Z.lor_spec, Z.shiftl_spec, slice_testbit by lia.
  replace (i + 0 * 4) with i by lia.
  destruct (Z.ltb_spec i 4) as [H4|H4].
  - rewrite (Z.testbit_neg_r _ (i - 4)) by lia.
    rewrite Bool.andb_true_r, Bool.orb_false_r. reflexivity.
  - rewrite slice_testbit by lia. replace (i - 4 + 1 * 4) with i by lia.
    rewrite Bool.andb_false_r. cbn [orb].
    destruct (Z.ltb_spec (i - 4) 4) as [H8|H8].
    + rewrite Bool.andb_true_r. reflexivity.
    + rewrite (testbit_u8_high mux i) by (assumption || lia).
      rewrite Bool.andb_false_r. reflexivity.
Qed.

(** X2. Writing back to a slot the complement of what it holds leaves
    the mux as it is. *)
Theorem mux_w_write_back (N : Z) (s : cpchess2_state) :
  N = 0 \/ N = 1 ->
  is_u8 (m_inp_mux s) ->
  final (mux_w N (Z.lxor (slice N (m_inp_mux s)) 0xf) s) = s.
Proof.
  intros HN Hs. apply state_eq.
  apply bits_eq_u8; [apply mux_w_u8 | exact Hs |]. intros i Hi.
  destruct HN as [-> | ->].
  - rewrite mux_w0_testbit by lia. testbits. rewrite slice_testbit by lia.
    replace (i + 0 * 4) with i by lia.
    destruct (Z.ltb_spec i 8); [|lia]. cbn [andb].
    destruct (Z.ltb_spec i 4); cbn [andb xorb].
    + rewrite Bool.andb_true_r, Bool.xorb_true_r, Bool.negb_involutive. reflexivity.
    + rewrite Bool.andb_false_r, Bool.xorb_false_r, Bool.orb_false_r. reflexivity.
  - rewrite mux_w1_testbit by lia.
    destruct (Z.ltb_spec i 8); [|lia]. cbn [andb].
    destruct (Z.ltb_spec i 4); [reflexivity|].
    testbits. rewrite slice_testbit by lia.
    replace (i - 4 + 1 * 4) with i by lia.
    destruct (Z.ltb_spec (i - 4) 4); [|lia].
    rewrite Bool.andb_true_r, Bool.xorb_true_r, Bool.negb_involutive. reflexivity.
Qed.

Lemma mux_w_write_back_witness :
  final (mux_w 1 (Z.lxor (slice 1 0xa6) 0xf) (State 0xa6)) = State 0xa6.
Proof.
  apply (mux_w_write_back 1 (State 0xa6)); [right; reflexivity|].
  unfold is_u8. cbn [m_inp_mux]. lia.
Defined.

(** X3. One 4-bit write to each slot, in either order, fixes the whole
    mux, whatever it held before: slot 0 holds the complement of [a] and
    slot 1 the complement of [b]. *)
Theorem mux_w_both_slots (a b : Z) (s : cpchess2_state) :
  0 <= a < 16 ->
  0 <= b < 16 ->
  m_inp_mux (final ((mux_w 0 a ;; mux_w 1 b) s)) =
    Z.lor (Z.lxor a 0xf) (Z.shiftl (Z.lxor b 0xf) 4) /\
  m_inp_mux (final ((mux_w 1 b ;; mux_w 0 a) s)) =
    Z.lor (Z.lxor a 0xf) (Z.shiftl (Z.lxor b 0xf) 4).
Proof.
  intros Ha Hb.
  change (final ((mux_w 0 a ;; mux_w 1 b) s))
    with (final (mux_w 1 b (final (mux_w 0 a s)))).
  change (final ((mux_w 1 b ;; mux_w 0 a) s))
    with (final (mux_w 0 a (final (mux_w 1 b s)))).
  split.
  - rewrite (mux_of_slices _ (mux_w_u8 1 b (final (mux_w 0 a s)))).
    rewrite mux_w1_slice0, mux_w0_slice0, mux_w1_slice1 by assumption. reflexivity.
  - rewrite (mux_of_slices _ (mux_w_u8 0 a (final (mux_w 1 b s)))).
    rewrite mux_w0_slice0, mux_w0_slice1, mux_w1_slice1 by assumption. reflexivity.
Qed.

Lemma mux_w_both_slots_witness :
  m_inp_mux (final ((mux_w 0 0x3 ;; mux_w 1 0xa) (State 0x99))) =
    Z.lor (Z.lxor 0x3 0xf) (Z.shiftl (Z.lxor 0xa 0xf) 4) /\
  m_inp_mux (final ((mux_w 1 0xa ;; mux_w 0 0x3) (State 0x99))) =
    Z.lor (Z.lxor 0x3 0xf) (Z.shiftl (Z.lxor 0xa 0xf) 4).
Proof. apply (mux_w_both_slots 0x3 0xa (State 0x99)); lia. Defined.

(** ** Runs of the machine *)

Lemma bind_final {A B} (m : M A) (k : A -> M B) (s : cpchess2_state) :
  final (bind m k s) = final (k (value (m s)) (final (m s))).
Proof. reflexivity. Qed.

Lemma bind_calls {A B} (m : M A) (k : A -> M B) (s : cpchess2_state) :
  calls (bind m k s) = calls (m s) ++ calls (k (value (m s)) (final (m s))).
Proof. reflexivity. Qed.

Lemma bind_value {A B} (m : M A) (k : A -> M B) (s : cpchess2_state) :
  value (bind m k s) = value (k (value (m s)) (final (m s))).
Proof. reflexivity. Qed.

Lemma ret_run {A} (a : A) (s : cpchess2_state) : ret a s = Outcome a s [].
Proof. reflexivity. Qed.

Lemma run_trace_cons (a : access) (t : list access) (s : cpchess2_state) :
  final (run_trace (a :: t) s) = final (run_trace t (final (access_run a s))) /\
  calls (run_trace (a :: t) s) =
    calls (access_run a s) ++ calls (run_trace t (final (access_run a s))) /\
  value (run_trace (a :: t) s) =
    value (access_run a s) ++ value (run_trace t (final (access_run a s))).
Proof.
  cbn [run_trace].
  rewrite !bind_final, !bind_calls, !bind_value, !ret_run.
  cbn [value final calls]. rewrite app_nil_r. repeat split.
Qed.

Lemma access_run_final (a : access) (s : cpchess2_state) :
  final (access_run a s) =
  match a with
  | write_r2 data => final (mux_w 0 data s)
  | write_r3 data => final (mux_w 1 data s)
  | _ => s
  end.
Proof.
  destruct a as [data | data | data | env]; cbn [access_run];
    rewrite bind_final, ret_run; cbn [final].
  - reflexivity.
  - reflexivity.
  - rewrite control_w_run. reflexivity.
  - rewrite input_r_run. reflexivity.
Qed.

Lemma access_run_calls (a : access) (s : cpchess2_state) :
  calls (access_run a s) =
  match a with
  | write_r2 data => calls (mux_w 0 data s)
  | write_r3 data => calls (mux_w 1 data s)
  | write_d data => calls (control_w data s)
  | read_d env => []
  end.
Proof.
  destruct a as [data | data | data | env]; cbn [access_run];
    rewrite bind_calls, ret_run; cbn [calls]; rewrite app_nil_r.
  - reflexivity.
  - reflexivity.
  - reflexivity.
  - rewrite input_r_run. reflexivity.
Qed.

Lemma access_run_value (a : access) (s : cpchess2_state) :
  value (access_run a s) =
  match a with
  | read_d env => [value (input_r env s)]
  | _ => []
  end.
Proof.
  destruct a as [data | data | data | env]; cbn [access_run];
    rewrite bind_value, ret_run; reflexivity.
Qed.

(** X4. Over any run of 4-bit port writes, control writes and reads, the
    mux behaves as two independent 4-bit latches: each slice holds the
    complement of the last value written to its slot, or what it held at
    the start if the slot was never written. *)
Theorem run_trace_latches (N : Z) (t : list access) (s : cpchess2_state) :
  N = 0 \/ N = 1 ->
  Forall nibble_access t ->
  slice N (m_inp_mux (final (run_trace t s))) = latch N t (slice N (m_inp_mux s)).
Proof.
  intros HN Ht. revert s.
  induction Ht as [|a t Ha Ht IH]; intros s; [reflexivity|].
  destruct (run_trace_cons a t s) as [-> _]. rewrite IH, access_run_final.
  destruct a as [data | data | data | env]; cbn [latch nibble_access] in *;
    try reflexivity; destruct HN as [-> | ->]; cbn [Z.eqb].
  - rewrite mux_w0_slice0 by exact Ha. reflexivity.
  - rewrite mux_w0_slice1 by exact Ha. reflexivity.
  - rewrite mux_w1_slice0. reflexivity.
  - rewrite mux_w1_slice1 by exact Ha. reflexivity.
Qed.

Lemma run_trace_latches_witness :
  slice 0 (m_inp_mux (final (run_trace
     [write_r2 0x5; write_r3 0x0; read_d sample_ports; write_d 0x14; write_r2 0xc]
     initial))) =
  latch 0 [write_r2 0x5; write_r3 0x0; read_d sample_ports; write_d 0x14; write_r2 0xc]
        (slice 0 (m_inp_mux initial)).
Proof.
  apply (run_trace_latches 0); [left; reflexivity|].
  repeat (apply Forall_cons; [cbn [nibble_access]; (lia || exact I)|]).
  apply Forall_nil.
Defined.

Lemma BIT_range (x n : Z) : BIT x n = 0 \/ BIT x n = 1.
Proof.
  unfold BIT.
  assert (E : Z.land (Z.shiftr x n) 1 = Z.shiftr x n mod 2)
    by (apply (Z.land_ones _ 1); lia).
  rewrite E. pose proof (Z.mod_pos_bound (Z.shiftr x n) 2). lia.
Qed.

Lemma mux_w_calls_fit (N data : Z) (s : cpchess2_state) :
  Forall call_fits (calls (mux_w N data s)).
Proof.
  rewrite mux_w_run. cbn [calls].
  constructor; [apply to_u8_range | constructor].
Qed.

Lemma control_w_calls_fit (data : Z) (s : cpchess2_state) :
  Forall call_fits (calls (control_w data s)).
Proof.
  rewrite control_w_run. cbn [calls].
  constructor; [apply BIT_range|]. constructor; [|constructor].
  cbn [call_fits]. change 3 with (Z.ones 2). rewrite Z.land_ones by lia.
  apply Z.mod_pos_bound. reflexivity.
Qed.

(** X5. Along every run, from every state, each value handed to a
    device is within that device: a column mask of 8 bits, a row mask of
    2 bits (the display is 2 by 8), a DAC level of 0 or 1; every value
    read is a [u16]; and a mux that is a [u8] at the start is one at the
    end. *)
Theorem run_trace_in_range (t : list access) (s : cpchess2_state) :
  Forall call_fits (calls (run_trace t s)) /\
  Forall is_u16 (value (run_trace t s)) /\
  (is_u8 (m_inp_mux s) -> is_u8 (m_inp_mux (final (run_trace t s)))).
Proof.
  revert s. induction t as [|a t IH]; intros s.
  - cbn [run_trace]. rewrite ret_run. cbn [calls value final].
    split; [constructor | split; [constructor | intros Hs; exact Hs]].
  - destruct (run_trace_cons a t s) as (-> & -> & ->).
    destruct (IH (final (access_run a s))) as (IHc & IHv & IHs).
    split; [|split].
    + apply Forall_app. split; [|exact IHc].
      rewrite access_run_calls.
      destruct a; auto using mux_w_calls_fit, control_w_calls_fit.
    + apply Forall_app. split; [|exact IHv].
      rewrite access_run_value.
      destruct a as [data | data | data | env];
        [constructor | constructor | constructor |].
      constructor; [apply input_r_u16 | constructor].
    + intros Hs. apply IHs. rewrite access_run_final.
      destruct a; auto using mux_w_u8.
Qed.

Lemma last_mx_app (cs cs' : list device_call) :
  last_mx (cs ++ cs') =
  match last_mx cs' with Some x => Some x | None => last_mx cs end.
Proof.
  induction cs as [|c cs IH]; cbn [app last_mx].
  - destruct (last_mx cs'); reflexivity.
  - rewrite IH. destruct (last_mx cs'); reflexivity.
Qed.

(** X6. The display always shows the latch: after any run, the last
    column mask written to the display is the mux; if the run wrote
    none, the mux is what it was at the start. *)
Theorem run_trace_display_in_sync (t : list access) (s : cpchess2_state) :
  match last_mx (calls (run_trace t s)) with
  | Some x => m_inp_mux (final (run_trace t s)) = x
  | None => final (run_trace t s) = s
  end.
Proof.
  revert s. induction t as [|a t IH]; intros s; [reflexivity|].
  destruct (run_trace_cons a t s) as (-> & -> & _).
  rewrite last_mx_app. specialize (IH (final (access_run a s))).
  destruct (last_mx (calls (run_trace t (final (access_run a s))))) as [x|];
    [exact IH|].
  rewrite IH, access_run_calls, access_run_final.
  destruct a as [data | data | data | env].
  - rewrite mux_w_run. reflexivity.
  - rewrite mux_w_run. reflexivity.
  - rewrite control_w_run. reflexivity.
  - reflexivity.
Qed.

(** ** More on the control write *)

Lemma BIT_testbit (x n : Z) : 0 <= n -> BIT x n = Z.b2z (Z.testbit x n).
Proof.
  intros Hn. unfold BIT.
  rewrite (Z.land_ones _ 1), Z.shiftr_div_pow2, Z.testbit_spec' by lia.
  reflexivity.
Qed.

Lemma BIT_eqb (x n : Z) : 0 <= n -> (BIT x n =? 0) = negb (Z.testbit x n).
Proof.
  intros Hn. rewrite BIT_testbit by exact Hn.
  destruct (Z.testbit x n); reflexivity.
Qed.

(** X7. The control write drives three lines and all of them plainly:
    the DAC level is bit 4 of [data]; row-select line 0 of the display is
    on exactly when bit 2 is clear, line 1 exactly when bit 3 is clear. *)
Theorem control_w_lines (data : Z) (s : cpchess2_state) :
  calls (control_w data s) =
  [dac_write (Z.b2z (Z.testbit data 4));
   display_write_my (Z.b2z (negb (Z.testbit data 2)) +
                     2 * Z.b2z (negb (Z.testbit data 3)))].
Proof.
  rewrite control_w_run. cbn [calls].
  rewrite BIT_testbit, row_select_value by lia.
  do 3 f_equal.
  rewrite (Z.land_ones _ 2), Z.shiftr_div_pow2 by lia.
  pose proof (Z.testbit_spec' data 2) as H2.
  pose proof (Z.testbit_spec' data 3) as H3.
  change (2 ^ 2) with 4 in *. change (2 ^ 3) with 8 in *.
  destruct (Z.testbit data 2), (Z.testbit data 3); cbn [Z.b2z negb] in *;
    specialize (H2 ltac:(lia)); specialize (H3 ltac:(lia));
    Z.div_mod_to_equations; lia.
Qed.

(** X8. Only bits 2, 3 and 4 of a control write have any effect: the
    other bits of the port, among them the input lines D6-D15, may be
    written with anything. *)
Theorem control_w_other_bits (data : Z) (s : cpchess2_state) :
  control_w data s = control_w (Z.land data 0x1c) s.
Proof.
  rewrite !control_w_run. do 3 f_equal.
  - rewrite !BIT_testbit by lia. rewrite Z.land_spec.
    change (Z.testbit 0x1c 4) with true. rewrite Bool.andb_true_r. reflexivity.
  - f_equal. apply Z.bits_inj'; intros i Hi. testbits.
    change 3 with (Z.ones 2). rewrite Z.testbit_ones_nonneg by lia.
    destruct (Z.ltb_spec i 2) as [H2|H2]; [|rewrite !Bool.andb_false_r; reflexivity].
    assert (Hcase : i = 0 \/ i = 1) by lia.
    destruct Hcase as [-> | ->]; cbn [Z.add Pos.add];
      [change (Z.testbit 0x1c 2) with true | change (Z.testbit 0x1c 3) with true];
      rewrite !Bool.andb_true_r; reflexivity.
Qed.

(** ** More on the composite read *)

Lemma testbit_u16_high (x i : Z) : is_u16 x -> 16 <= i -> Z.testbit x i = false.
Proof. intros Hx Hi. apply (testbit_above 16); [exact Hx | lia]. Qed.

Lemma is_u16_0 : is_u16 0.
Proof. unfold is_u16. lia. Qed.

Lemma buttons_step_u16 (env : ports) (mux i data : Z) :
  is_u16 data -> is_u16 (buttons_step env mux i data).
Proof.
  intros Hd. unfold buttons_step.
  destruct (Z.land mux (inputs_read env i) =? 0); [exact Hd | apply to_u16_range].
Qed.

Lemma chessboard_step_u16 (env : ports) (mux i data : Z) :
  is_u16 data -> is_u16 (chessboard_step env mux i data).
Proof.
  intros Hd. unfold chessboard_step.
  destruct (BIT mux i =? 0); [exact Hd | apply to_u16_range].
Qed.

(** The second loop leaves the low byte of the accumulator alone. *)
Lemma chessboard_step_low_byte (env : ports) (mux j data i : Z) :
  0 <= i < 8 ->
  Z.testbit (chessboard_step env mux j data) i = Z.testbit data i.
Proof.
  intros Hi. unfold chessboard_step.
  destruct (BIT mux j =? 0); [reflexivity | apply low_byte_lor; exact Hi].
Qed.

(** Bits 6 and 7 of the accumulator: one per keypad group, set when a
    line of the mux meets a line of the group that reads 1. *)
Lemma scan_key_bit (env : ports) (mux i : Z) :
  i = 0 \/ i = 1 ->
  Z.testbit (scan env mux) (6 + i) = negb (Z.land mux (inputs_read env i) =? 0).
Proof.
  intros Hi. rewrite scan_unroll.
  rewrite !chessboard_step_low_byte by lia.
  unfold buttons_step.
  destruct Hi as [-> | ->];
    destruct (Z.land mux (inputs_read env 0) =? 0),
             (Z.land mux (inputs_read env 1) =? 0); reflexivity.
Qed.

(** X9. Bit 6 of the value read is low exactly when a selected mux line
    meets a line of IN.0 that reads 1, and bit 7 likewise for IN.1: each
    bit is 1 if and only if [mux & readGroup(i)] is zero. *)
Theorem input_r_key_bits (env : ports) (s : cpchess2_state) (i : Z) :
  i = 0 \/ i = 1 ->
  Z.testbit (value (input_r env s)) (6 + i) =
  (Z.land (m_inp_mux s) (inputs_read env i) =? 0).
Proof.
  intros Hi. rewrite input_r_run. cbn [value].
  rewrite testbit_to_u16, Z.lnot_spec, scan_key_bit by lia.
  rewrite Bool.negb_involutive.
  destruct Hi as [-> | ->]; reflexivity.
Qed.

Lemma input_r_key_bits_witness :
  Z.testbit (value (input_r sample_ports (State 0x12))) (6 + 1) =
  (Z.land (m_inp_mux (State 0x12)) (inputs_read sample_ports 1) =? 0).
Proof. apply (input_r_key_bits sample_ports (State 0x12) 1). right; reflexivity. Defined.

(** X10. On the ports as the driver wires them, a group is only ever
    reported through the mux lines that carry its keys: while no line of
    [0x7e] is selected bit 6 of the value read stays high, and while no
    line of [0xf0] is selected bit 7 does. *)
Theorem input_r_wired_keys (env : ports) (s : cpchess2_state) (i : Z) :
  ports_wired env ->
  i = 0 \/ i = 1 ->
  Z.land (m_inp_mux s) (port_keys i) = 0 ->
  Z.testbit (value (input_r env s)) (6 + i) = true.
Proof.
  intros Hwired Hi Hsel. rewrite input_r_run. cbn [value].
  rewrite testbit_to_u16, Z.lnot_spec, scan_key_bit by lia.
  rewrite Bool.negb_involutive.
  assert (Hzero : Z.land (m_inp_mux s) (inputs_read env i) = 0).
  { apply Z.bits_inj'; intros k Hk. rewrite Z.bits_0, Z.land_spec.
    pose proof (f_equal (fun x => Z.testbit x k) Hsel) as Hs.
    pose proof (f_equal (fun x => Z.testbit x k) (Hwired i)) as Hw.
    cbv beta in Hs, Hw.
    rewrite Z.bits_0, Z.land_spec in Hs.
    rewrite Z.bits_0, Z.land_spec, Z.lnot_spec in Hw by exact Hk.
    destruct (Z.testbit (m_inp_mux s) k), (Z.testbit (inputs_read env i) k),
             (Z.testbit (port_keys i) k); cbn [andb negb] in *; congruence. }
  rewrite Hzero. destruct Hi as [-> | ->]; reflexivity.
Qed.

Lemma wired_ports_wired : ports_wired wired_ports.
Proof.
  intros i. unfold port_keys. cbn [wired_ports inputs_read].
  destruct (i =? 0); [reflexivity|]. destruct (i =? 1); reflexivity.
Qed.

Lemma input_r_wired_keys_witness :
  Z.testbit (value (input_r wired_ports (State 0x81))) (6 + 0) = true.
Proof.
  apply (input_r_wired_keys wired_ports (State 0x81) 0).
  - exact wired_ports_wired.
  - left; reflexivity.
  - reflexivity.
Defined.

Lemma upper_byte_u8 (d : Z) : is_u8 d -> upper_byte d = 0.
Proof.
  intros Hd. apply Z.bits_inj'; intros i Hi. unfold upper_byte. testbits.
  rewrite (testbit_u8_high d (i + 8)) by (assumption || lia).
  rewrite Z.bits_0. reflexivity.
Qed.

Lemma chessboard_step_upper (env : ports) (mux j data : Z) :
  (forall x, is_u8 (board_read_file env x)) ->
  0 <= j ->
  upper_byte (chessboard_step env mux j data) =
  Z.lor (upper_byte data)
        (if Z.testbit mux j then board_read_file env (Z.lxor j 7) else 0).
Proof.
  intros Hboard Hj. unfold chessboard_step. rewrite BIT_eqb by exact Hj.
  destruct (Z.testbit mux j); cbn [negb]; [|rewrite Z.lor_0_r; reflexivity].
  pose proof (Hboard (Z.lxor j 7)) as Hr.
  apply Z.bits_inj'; intros i Hi. unfold upper_byte. testbits.
  replace (i + 8 - 8) with i by lia.
  destruct (Z.ltb_spec i 8) as [H8|H8].
  - destruct (Z.ltb_spec (i + 8) 16); [|lia]. cbn [andb].
    rewrite !Bool.andb_true_r. reflexivity.
  - rewrite (testbit_u8_high _ i Hr) by lia.
    rewrite !Bool.andb_false_r. reflexivity.
Qed.

Lemma upper_byte_complement (d : Z) :
  upper_byte (to_u16 (Z.lnot d)) = Z.lxor 0xff (upper_byte d).
Proof.
  apply Z.bits_inj'; intros i Hi. unfold upper_byte. testbits.
  destruct (Z.ltb_spec i 8) as [H8|H8].
  - destruct (Z.ltb_spec (i + 8) 16); [|lia]. cbn [andb xorb].
    rewrite !Bool.andb_true_r. reflexivity.
  - rewrite !Bool.andb_false_r. reflexivity.
Qed.

(** X11. The upper byte of the accumulator is the OR of the readings of
    all selected files, file [i XOR 7] for each mux bit [i] that is set;
    the upper byte of the value read is its complement. *)
Theorem input_r_board_byte (env : ports) (s : cpchess2_state) :
  ports_ok env ->
  upper_byte (value (input_r_data env s)) = selected_files env (m_inp_mux s) /\
  upper_byte (value (input_r env s)) =
    Z.lxor 0xff (selected_files env (m_inp_mux s)).
Proof.
  intros [Hboard _].
  assert (E : upper_byte (scan env (m_inp_mux s)) = selected_files env (m_inp_mux s)).
  { rewrite scan_unroll. rewrite !chessboard_step_upper by (assumption || lia).
    rewrite (upper_byte_u8 _ (buttons_u8 env (m_inp_mux s))). reflexivity. }
  rewrite input_r_run, input_r_data_run. cbn [value].
  rewrite upper_byte_complement, E. split; reflexivity.
Qed.

Lemma input_r_board_byte_witness :
  upper_byte (value (input_r_data sample_ports (State 0x21))) =
    selected_files sample_ports (m_inp_mux (State 0x21)) /\
  upper_byte (value (input_r sample_ports (State 0x21))) =
    Z.lxor 0xff (selected_files sample_ports (m_inp_mux (State 0x21))).
Proof. apply (input_r_board_byte sample_ports (State 0x21)). exact sample_ports_ok. Defined.

Lemma to_u16_lor_l (da db r k : Z) :
  0 <= k -> is_u16 db ->
  Z.testbit (to_u16 (Z.lor (Z.lor da db) r)) k =
  Z.testbit (Z.lor (to_u16 (Z.lor da r)) db) k.
Proof.
  intros Hk Hdb. testbits.
  destruct (Z.ltb_spec k 16) as [H16|H16]; cbn [andb].
  - btauto.
  - rewrite (testbit_u16_high db k Hdb H16). reflexivity.
Qed.

(** One step of either loop on the union of two mux values is the OR of
    the steps on each. *)
Lemma chessboard_step_lor (env : ports) (a b j da db : Z) :
  0 <= j -> is_u16 da -> is_u16 db ->
  chessboard_step env (Z.lor a b) j (Z.lor da db) =
  Z.lor (chessboard_step env a j da) (chessboard_step env b j db).
Proof.
  intros Hj Hda Hdb. unfold chessboard_step.
  rewrite !BIT_eqb, Z.lor_spec by exact Hj.
  destruct (Z.testbit a j), (Z.testbit b j); cbn [orb negb]; try reflexivity;
    apply Z.bits_inj'; intros k Hk.
  - testbits. btauto.
  - apply to_u16_lor_l; assumption.
  - rewrite (Z.lor_comm da db), (Z.lor_comm da (to_u16 _)).
    apply to_u16_lor_l; assumption.
Qed.

Lemma land_lor_eqb (a b x : Z) :
  (Z.land (Z.lor a b) x =? 0) = (Z.land a x =? 0) && (Z.land b x =? 0).
Proof.
  rewrite Z.land_lor_distr_l.
  destruct (Z.eqb_spec (Z.land a x) 0) as [Ea|Ea], (Z.eqb_spec (Z.land b x) 0) as [Eb|Eb];
    cbn [andb]; rewrite ?Ea, ?Eb.
  - reflexivity.
  - rewrite Z.lor_0_l. apply Z.eqb_neq. exact Eb.
  - rewrite Z.lor_0_r. apply Z.eqb_neq. exact Ea.
  - apply Z.eqb_neq. intros H. apply Z.lor_eq_0_iff in H. tauto.
Qed.

Lemma buttons_step_lor (env : ports) (a b j da db : Z) :
  0 <= j -> is_u16 da -> is_u16 db ->
  buttons_step env (Z.lor a b) j (Z.lor da db) =
  Z.lor (buttons_step env a j da) (buttons_step env b j db).
Proof.
  intros Hj Hda Hdb. unfold buttons_step. rewrite land_lor_eqb.
  destruct (Z.land a (inputs_read env j) =? 0), (Z.land b (inputs_read env j) =? 0);
    cbn [andb]; try reflexivity; apply Z.bits_inj'; intros k Hk.
  - rewrite (Z.lor_comm da db), (Z.lor_comm da (to_u16 _)).
    apply to_u16_lor_l; assumption.
  - apply to_u16_lor_l; assumption.
  - testbits. btauto.
Qed.

Lemma iter_from_lor (f fa fb : Z -> Z -> Z) :
  (forall j da db, 0 <= j -> is_u16 da -> is_u16 db ->
     f j (Z.lor da db) = Z.lor (fa j da) (fb j db)) ->
  (forall j d, is_u16 d -> is_u16 (fa j d)) ->
  (forall j d, is_u16 d -> is_u16 (fb j d)) ->
  forall n i da db, 0 <= i -> is_u16 da -> is_u16 db ->
    iter_from i n f (Z.lor da db) = Z.lor (iter_from i n fa da) (iter_from i n fb db) /\
    is_u16 (iter_from i n fa da) /\ is_u16 (iter_from i n fb db).
Proof.
  intros Hstep Hfa Hfb. induction n as [|n IH]; intros i da db Hi Hda Hdb;
    cbn [iter_from].
  - split; [reflexivity | split; assumption].
  - rewrite Hstep by assumption. apply IH; [lia | apply Hfa | apply Hfb]; assumption.
Qed.

Lemma scan_lor (env : ports) (a b : Z) :
  scan env (Z.lor a b) = Z.lor (scan env a) (scan env b).
Proof.
  unfold scan.
  destruct (iter_from_lor (buttons_step env (Z.lor a b)) (buttons_step env a)
              (buttons_step env b)
              (fun j da db => buttons_step_lor env a b j da db)
              (buttons_step_u16 env a) (buttons_step_u16 env b)
              2%nat 0 0 0 (Z.le_refl 0) is_u16_0 is_u16_0) as (Eb & Ha & Hb).
  change (Z.lor 0 0) with 0 in Eb. rewrite Eb.
  apply (iter_from_lor (chessboard_step env (Z.lor a b)) (chessboard_step env a)
           (chessboard_step env b)
           (fun j da db => chessboard_step_lor env a b j da db)
           (chessboard_step_u16 env a) (chessboard_step_u16 env b)
           8%nat 0 _ _ (Z.le_refl 0) Ha Hb).
Qed.

(** X12. Selected lines superpose: what is read with the union of two
    mux values selected is, before the complement, the OR of what is read
    with each, and the value returned is the AND of the two values. *)
Theorem input_r_superposition (env : ports) (a b : Z) :
  value (input_r_data env (State (Z.lor a b))) =
    Z.lor (value (input_r_data env (State a))) (value (input_r_data env (State b))) /\
  value (input_r env (State (Z.lor a b))) =
    Z.land (value (input_r env (State a))) (value (input_r env (State b))).
Proof.
  rewrite !input_r_run, !input_r_data_run. cbn [value m_inp_mux].
  rewrite scan_lor. split; [reflexivity|].
  apply Z.bits_inj'; intros k Hk. testbits. btauto.
Qed.
